(** * webargs.aiohttpparser: a shallow embedding and its properties

    The module binds the webargs parsing core to aiohttp's request object.
    Everything it imports (the [webargs.core] helpers, the standard [json]
    module, [aiohttp.web_exceptions]) is taken as an interface; what is
    embedded line by line is the code of [aiohttpparser.py] itself. *)

From Stdlib Require Import ZArith.
From stdpp Require Import gmap strings list fin_maps pretty.

#[local] Set Warnings "-register-all".
Local Open Scope Z_scope.
Local Open Scope string_scope.

(** ** Python values *)

(** Python [str] objects are represented by their UTF-8 text, so that
    [s.encode("utf-8")] is the list of bytes of the text. *)
Abbreviation bytes := (list Byte.byte).

Definition encode_utf8 (s : string) : bytes := String.list_byte_of_string s.

(** aiohttp's multi-valued mappings (query, headers, post data, ...). *)
Abbreviation MultiDict := (list (string * string)).

Inductive PyVal : Type :=
| PNone
| Missing                                  (* the object [core.missing] *)
| PBool (b : bool)
| PInt (z : Z)
| PStr (s : string)
| PList (l : list PyVal)
| PDict (d : list (string * PyVal))
| PMultiDict (d : MultiDict).

(** [v is None] *)
Definition is_None (v : PyVal) : bool :=
  match v with PNone => true | _ => false end.

(** ** Classes and [issubclass] *)

(** A class is identified by its qualified name; [ancestors] lists the
    qualified names of the rest of its method resolution order, and
    [status_code] is the (possibly inherited) class attribute, [None] when
    it is Python's [None]. *)
Record PyClass := {
  qualname : string;
  ancestors : list string;
  status_code : option Z
}.

Definition mro (c : PyClass) : list string := qualname c :: ancestors c.

Definition issubclass (c d : PyClass) : bool :=
  bool_decide (qualname d ∈ mro c).

(** What a name of a module is bound to: a class, or anything else
    (for which [issubclass] raises [TypeError]). *)
Inductive PyObj :=
| ObjClass (c : PyClass)
| ObjOther.

(** ** The imported interfaces *)

(** How the constructor of an exception class can refuse a call: with a
    [TypeError] (required positional arguments are missing) or a
    [ValueError] (the headers already set the content type). *)
Inductive InitError :=
| InitTypeError (msg : string)
| InitValueError (msg : string).

(** [aiohttp.web_exceptions] (and [web.HTTPClientError], the same object).
    [init_raises cls body headers content_type] is the error that the call
    [cls(body=body, headers=headers, content_type=content_type)] raises
    instead of returning an instance, if any. *)
Class WebExceptions := {
  __all__ : list string;
  web_exceptions_getattr : string → PyObj;
  HTTPException : PyClass;
  HTTPClientError : PyClass;
  init_raises : PyClass → bytes → PyVal → string → option InitError
}.

(** [webargs.core]: the field type, [get_value], [is_json] and
    [Parser.DEFAULT_VALIDATION_STATUS]. *)
Class Core := {
  Field : Type;
  get_value : PyVal → string → Field → bool → PyVal;
  is_json : string → bool;
  DEFAULT_VALIDATION_STATUS : Z
}.

(** The standard [json] module: [loads] fails with a [JSONDecodeError] whose
    [doc] is the text it was given; [str_format] is [str.format] on one
    argument. *)
Class Json := {
  loads : string → option PyVal;
  dumps : PyVal → string;
  str_format : PyVal → string
}.

(** ** The status-code lookup table *)

Section ExceptionMap.
Context `{WebExceptions}.

(** [class HTTPUnprocessableEntity(web.HTTPClientError): status_code = 422] *)
Definition HTTPUnprocessableEntity : PyClass :=
  {| qualname := "webargs.aiohttpparser.HTTPUnprocessableEntity";
     ancestors := mro HTTPClientError;
     status_code := Some 422 |}.

(** [exception_map = {422: HTTPUnprocessableEntity}], before the scan. *)
Definition exception_map_initial : gmap Z PyClass :=
  {[ 422 := HTTPUnprocessableEntity ]}.

(** One iteration of the [for name in web_exceptions.__all__] loop. *)
Definition _find_exceptions_body
    (exception_map : gmap Z PyClass) (name : string) : gmap Z PyClass :=
  match web_exceptions_getattr name with
  | ObjOther => exception_map              (* TypeError: not an HTTP exception *)
  | ObjClass obj =>
      let is_http_exception := issubclass obj HTTPException in
      match negb is_http_exception, status_code obj with
      | true, _ => exception_map
      | false, None => exception_map
      | false, Some code =>
          match exception_map !! code with
          | Some old_obj =>
              if issubclass obj old_obj then exception_map
              else <[code := obj]> exception_map
          | None => <[code := obj]> exception_map
          end
      end
  end.

Definition _find_exceptions
    (exception_map : gmap Z PyClass) (names : list string) : gmap Z PyClass :=
  foldl _find_exceptions_body exception_map names.

(** The table as every later reader sees it: after [_find_exceptions()]. *)
Definition exception_map : gmap Z PyClass :=
  _find_exceptions exception_map_initial __all__.

(** What the scan registers: HTTP exception classes under their own code. *)
Definition well_keyed (m : gmap Z PyClass) : Prop :=
  ∀ code c, m !! code = Some c →
    issubclass c HTTPException = true ∧ status_code c = Some code.

End ExceptionMap.

(** ** Exceptions, outcomes and coroutines *)

Inductive Exn :=
| HTTPError (error_class : PyClass) (body : bytes) (headers : PyVal)
            (content_type : string)          (* an instance of a table class *)
| LookupError (msg : string)
| AttributeError (attr : string)
| KeyError (key : string)
| NotImplementedError (msg : string)
| AssertionError (msg : string)
| JSONDecodeError (doc : string)
| TypeError (msg : string)
| ValueError (msg : string)
| UnicodeDecodeError (reason : string)
| OtherError (type_name : string).          (* any other exception *)

Definition init_exn (err : InitError) : Exn :=
  match err with
  | InitTypeError msg => TypeError msg
  | InitValueError msg => ValueError msg
  end.

Inductive Outcome (A : Type) :=
| Return (a : A)
| Raise (e : Exn).
Arguments Return {A} a.
Arguments Raise {A} e.

(** The framework coroutines a parser method can await. *)
Inductive Await := AwaitPost | AwaitJson.

(** What a method of the parser can read and change while one request is
    processed: [self._cache], and the log of the framework coroutines
    awaited so far (oldest first). *)
Record World := {
  _cache : gmap string PyVal;
  awaited : list Await
}.

Definition Coro (A : Type) : Type := World → Outcome A * World.

Definition ret {A} (a : A) : Coro A := fun w => (Return a, w).

Definition raise {A} (e : Exn) : Coro A := fun w => (Raise e, w).

Definition bind {A B} (m : Coro A) (k : A → Coro B) : Coro B :=
  fun w =>
    match m w with
    | (Return a, w') => k a w'
    | (Raise e, w') => (Raise e, w')
    end.

(** [try: m], handing the outcome to the [except] clauses that follow. *)
Definition try_except {A} (m : Coro A) : Coro (Outcome A) :=
  fun w => let '(r, w') := m w in (Return r, w').

Notation "'let*' x ':=' m 'in' k" := (bind m (fun x => k))
  (at level 10, x pattern, m at level 100, k at level 200).

(** [self._cache.get(key)] *)
Definition cache_get (key : string) : Coro PyVal :=
  fun w => (Return (default PNone (_cache w !! key)), w).

(** [self._cache[key]] *)
Definition cache_getitem (key : string) : Coro PyVal :=
  fun w =>
    match _cache w !! key with
    | Some v => (Return v, w)
    | None => (Raise (KeyError key), w)
    end.

(** [self._cache[key] = v] *)
Definition cache_setitem (key : string) (v : PyVal) : Coro unit :=
  fun w => (Return tt, {| _cache := <[key := v]> (_cache w); awaited := awaited w |}).

(** ** The request *)

(** The parts of [aiohttp.web.Request] the module reads. [post_data] is what
    [await req.post()] resolves to (a multidict proxy, never [None]) and
    [text] the decoded body that [req.json()] hands to [json.loads].
    Reading the body can fail: [post_raises] is the exception that
    [await req.post()] raises instead of resolving (a payload that is too
    large, say), and [text_raises] the one that [await req.text()] raises
    inside [req.json()] (a body that is not valid in its charset), if any. *)
Record Request := {
  query : MultiDict;
  headers : MultiDict;
  cookies : MultiDict;
  match_info : MultiDict;
  content_type : string;
  body_exists : bool;
  post_data : MultiDict;
  text : string;
  post_raises : option Exn;
  text_raises : option Exn
}.

(** [await req.post()] *)
Definition req_post (req : Request) : Coro PyVal :=
  fun w => (match post_raises req with
            | Some e => Raise e
            | None => Return (PMultiDict (post_data req))
            end,
            {| _cache := _cache w; awaited := (awaited w ++ [AwaitPost])%list |}).

(** [await req.json()], that is [json.loads(await req.text())] *)
Definition req_json `{Json} (req : Request) : Coro PyVal :=
  fun w => (match text_raises req with
            | Some e => Raise e
            | None =>
                match loads (text req) with
                | Some v => Return v
                | None => Raise (JSONDecodeError (text req))
                end
            end,
            {| _cache := _cache w; awaited := (awaited w ++ [AwaitJson])%list |}).

(** ** AIOHTTPParser *)

Section AIOHTTPParser.
Context `{Core, Json}.

Definition is_json_request (req : Request) : bool :=
  let content_type := content_type req in
  is_json content_type.

Definition parse_querystring (req : Request) (name : string) (field : Field)
  : Coro PyVal :=
  ret (get_value (PMultiDict (query req)) name field false).

Definition parse_form (req : Request) (name : string) (field : Field)
  : Coro PyVal :=
  let* post_data := cache_get "post" in
  let* _ := (if is_None post_data
             then let* v := req_post req in cache_setitem "post" v
             else ret tt) in
  let* post := cache_getitem "post" in
  ret (get_value post name field false).

Definition parse_json (req : Request) (name : string) (field : Field)
  : Coro PyVal :=
  let* json_data := cache_get "json" in
  if is_None json_data then
    if negb (body_exists req && is_json_request req) then ret Missing
    else
      let* r := try_except (req_json req) in
      match r with
      | Raise (JSONDecodeError doc) =>
          if String.eqb doc EmptyString then ret Missing
          else raise (JSONDecodeError doc)
      | Raise e => raise e
      | Return json_data =>
          let* _ := cache_setitem "json" json_data in
          ret (get_value json_data name field true)
      end
  else ret (get_value json_data name field true).

Definition parse_headers (req : Request) (name : string) (field : Field)
  : Coro PyVal :=
  ret (get_value (PMultiDict (headers req)) name field false).

Definition parse_cookies (req : Request) (name : string) (field : Field)
  : Coro PyVal :=
  ret (get_value (PMultiDict (cookies req)) name field false).

Definition parse_files (req : Request) (name : string) (field : Field)
  : Coro PyVal :=
  raise (NotImplementedError
    "parse_files is not implemented. You may be able to use parse_form for parsing upload data.").

Definition parse_match_info (req : Request) (name : string) (field : Field)
  : Coro PyVal :=
  ret (get_value (PMultiDict (match_info req)) name field false).

End AIOHTTPParser.

(** *** [get_request_from_view_args] *)

(** A positional argument of a handler: an instance of [web.Request], an
    instance of [web.View] (with whatever its [request] attribute holds), or
    an object of another type. *)
Inductive HandlerArg :=
| ArgRequest (r : Request)
| ArgView (request : HandlerArg)
| ArgOther (v : PyVal).

(** The [for arg in args] loop; the result is the final value of [req]. *)
Fixpoint scan_args (args : list HandlerArg) : HandlerArg :=
  match args with
  | [] => ArgOther PNone
  | arg :: args' =>
      match arg with
      | ArgRequest _ => arg
      | ArgView request => request
      | ArgOther _ => scan_args args'
      end
  end.

Definition get_request_from_view_args
    (view : PyVal) (args : list HandlerArg) (kwargs : PyVal) : Outcome Request :=
  match scan_args args with
  | ArgRequest req => Return req
  | _ => Raise (AssertionError "Request argument not found for handler")
  end.

(** *** [handle_error] *)

Module ValidationError.
(** The error handed to [handle_error]: its [messages], and its
    [status_code] attribute when it has one. *)
Record t := {
  messages : PyVal;
  status_code : option PyVal
}.
End ValidationError.

(** [error_status_code or default], on an [int] or [None]. *)
Definition py_or (error_status_code : option Z) (fallback : Z) : Z :=
  match error_status_code with
  | Some code => if Z.eqb code 0 then fallback else code
  | None => fallback
  end.

Section HandleError.
Context `{WebExceptions, Core, Json}.

Definition handle_error
    (error : ValidationError.t) (req : Request) (schema : PyVal)
    (error_status_code : option Z) (error_headers : PyVal) : Outcome PyVal :=
  let error_class :=
    exception_map !! py_or error_status_code DEFAULT_VALIDATION_STATUS in
  match error_class with
  | None =>
      match ValidationError.status_code error with
      | Some code => Raise (LookupError ("No exception for " ++ str_format code))
      | None => Raise (AttributeError "status_code")
      end
  | Some error_class =>
      let headers := error_headers in
      let body := encode_utf8 (dumps (ValidationError.messages error)) in
      match init_raises error_class body headers "application/json" with
      | Some err => Raise (init_exn err)
      | None => Raise (HTTPError error_class body headers "application/json")
      end
  end.

End HandleError.

(** ** One request's sequence of extractions *)

(** The [parse_*] methods by name. *)
Inductive Method :=
| m_parse_querystring | m_parse_form | m_parse_json | m_parse_headers
| m_parse_cookies | m_parse_files | m_parse_match_info.

Section Calls.
Context `{Core, Json}.

Record Call := { call_method : Method; call_name : string; call_field : Field }.

Definition call (req : Request) (c : Call) : Coro PyVal :=
  let name := call_name c in
  let field := call_field c in
  match call_method c with
  | m_parse_querystring => parse_querystring req name field
  | m_parse_form => parse_form req name field
  | m_parse_json => parse_json req name field
  | m_parse_headers => parse_headers req name field
  | m_parse_cookies => parse_cookies req name field
  | m_parse_files => parse_files req name field
  | m_parse_match_info => parse_match_info req name field
  end.

(** The world after a sequence of extractions, whatever each returned or
    raised. *)
Definition run (req : Request) (calls : list Call) (w : World) : World :=
  foldl (fun w c => snd (call req c w)) w calls.

(** A request starts with an empty cache and nothing awaited. *)
Definition fresh : World := {| _cache := ∅; awaited := [] |}.

Definition reachable (req : Request) (w : World) : Prop :=
  ∃ calls, w = run req calls fresh.

(** The cache holds nothing but what the framework returned for this
    request: under "json" a document decoded from a body that was there
    with a JSON content type, under "post" the post data; either read went
    through without an exception. *)
Definition cache_sound (req : Request) (w : World) : Prop :=
  (∀ v, _cache w !! "json" = Some v →
     body_exists req && is_json_request req = true
     ∧ loads (text req) = Some v ∧ text_raises req = None)
  ∧ (∀ v, _cache w !! "post" = Some v →
       v = PMultiDict (post_data req) ∧ post_raises req = None).

End Calls.

#[export] Instance Await_eq_dec : EqDecision Await.
Proof. solve_decision. Defined.

(** How many times the coroutine [a] has been awaited so far. *)
Definition awaits (a : Await) (w : World) : nat :=
  count_occ Await_eq_dec (awaited w) a.

(** The memo in step with the log: nothing stored and nothing awaited, or a
    value other than [None] stored after exactly one await. *)
Definition memo_post (w : World) : Prop :=
  match _cache w !! "post" with
  | None => awaits AwaitPost w = 0%nat
  | Some v => is_None v = false ∧ awaits AwaitPost w = 1%nat
  end.

Definition memo_json (w : World) : Prop :=
  match _cache w !! "json" with
  | None => awaits AwaitJson w = 0%nat
  | Some v => is_None v = false ∧ awaits AwaitJson w = 1%nat
  end.

(** The [except json.JSONDecodeError as e] clause of [parse_json], applied to
    the exception that [await req.json()] raised. *)
Definition json_except (e : Exn) : Outcome PyVal :=
  match e with
  | JSONDecodeError doc =>
      if String.eqb doc EmptyString then Return Missing
      else Raise (JSONDecodeError doc)
  | _ => Raise e
  end.

(** An exception that is not an HTTP response built from a table class. *)
Definition hard_failure (e : Exn) : Prop :=
  match e with
  | LookupError _ | AttributeError _ => True
  | _ => False
  end.

Definition assertion_error : Outcome Request :=
  Raise (AssertionError "Request argument not found for handler").

(** *** The location map *)

(** [__location_map__ = dict(match_info="parse_match_info",
    **core.Parser.__location_map__)]. The core's map is an argument; a
    keyword given twice makes the call to [dict] raise [TypeError], which is
    the result [None]. *)
Definition __location_map__ (core_location_map : gmap string string)
  : option (gmap string string) :=
  match core_location_map !! "match_info" with
  | Some _ => None
  | None => Some (<["match_info" := "parse_match_info"]> core_location_map)
  end.

(** Calls of [parse_form], of [parse_json]. *)
Definition is_form_call `{Core} (c : Call) : bool :=
  match call_method c with m_parse_form => true | _ => false end.

Definition is_json_call `{Core} (c : Call) : bool :=
  match call_method c with m_parse_json => true | _ => false end.

(** The name [name] is bound to no HTTP exception class with status code
    [code], unless it is [obj]. *)
Definition only_class_for `{WebExceptions}
    (code : Z) (obj : PyClass) (name : string) : Prop :=
  ∀ obj', web_exceptions_getattr name = ObjClass obj' →
    issubclass obj' HTTPException = true →
    status_code obj' = Some code → obj' = obj.

(** ** Concrete instances of the imported interfaces

    A small excerpt of aiohttp's exception hierarchy and simple stand-ins for
    the core helpers and the [json] module. They serve to run the definitions
    above on concrete requests. *)

Module Sample.

Definition cls (name : string) (parents : list string) (code : option Z)
  : PyClass :=
  {| qualname := "aiohttp.web_exceptions." ++ name;
     ancestors := (fun p => "aiohttp.web_exceptions." ++ p) <$> parents;
     status_code := code |}.

Definition HTTPException_ := cls "HTTPException" [] None.
Definition HTTPError_ := cls "HTTPError" ["HTTPException"] None.
Definition HTTPSuccessful_ := cls "HTTPSuccessful" ["HTTPException"] None.
Definition HTTPOk_ := cls "HTTPOk" ["HTTPSuccessful"; "HTTPException"] (Some 200).
Definition HTTPClientError_ :=
  cls "HTTPClientError" ["HTTPError"; "HTTPException"] None.
Definition HTTPBadRequest_ :=
  cls "HTTPBadRequest" ["HTTPClientError"; "HTTPError"; "HTTPException"] (Some 400).
Definition HTTPNotFound_ :=
  cls "HTTPNotFound" ["HTTPClientError"; "HTTPError"; "HTTPException"] (Some 404).
(** [HTTPMethodNotAllowed.__init__(self, method, allowed_methods, *, ...)]
    has two required positional parameters. *)
Definition HTTPMethodNotAllowed_ :=
  cls "HTTPMethodNotAllowed" ["HTTPClientError"; "HTTPError"; "HTTPException"]
      (Some 405).
(** A class that refines [HTTPBadRequest] and inherits its status code. *)
Definition HTTPBadRequestDetail_ :=
  cls "HTTPBadRequestDetail"
      ["HTTPBadRequest"; "HTTPClientError"; "HTTPError"; "HTTPException"]
      (Some 400).

Definition module_dict : list (string * PyObj) :=
  [ ("HTTPException", ObjClass HTTPException_);
    ("HTTPError", ObjClass HTTPError_);
    ("HTTPSuccessful", ObjClass HTTPSuccessful_);
    ("HTTPOk", ObjClass HTTPOk_);
    ("HTTPClientError", ObjClass HTTPClientError_);
    ("HTTPBadRequest", ObjClass HTTPBadRequest_);
    ("HTTPBadRequestDetail", ObjClass HTTPBadRequestDetail_);
    ("HTTPNotFound", ObjClass HTTPNotFound_);
    ("HTTPMethodNotAllowed", ObjClass HTTPMethodNotAllowed_);
    ("helper", ObjOther) ].

Fixpoint assoc {V} (k : string) (d : list (string * V)) : option V :=
  match d with
  | [] => None
  | (k', v) :: d' => if String.eqb k k' then Some v else assoc k d'
  end.

(** The constructors of aiohttp's exception classes: the one of
    [HTTPMethodNotAllowed] wants its positional arguments, and every one
    refuses [content_type] together with a Content-Type header. *)
Definition sample_init_raises
    (c : PyClass) (body : bytes) (headers : PyVal) (content_type : string)
  : option InitError :=
  if String.eqb (qualname c) (qualname HTTPMethodNotAllowed_)
  then Some (InitTypeError
    "__init__() missing 2 required positional arguments: 'method' and 'allowed_methods'")
  else
    match headers with
    | PMultiDict d =>
        match assoc "Content-Type" d with
        | Some _ => Some (InitValueError
            "passing both Content-Type header and content_type or charset params is forbidden")
        | None => None
        end
    | _ => None
    end.

#[export] Instance web_exceptions : WebExceptions := {|
  __all__ := fst <$> module_dict;
  web_exceptions_getattr name := default ObjOther (assoc name module_dict);
  HTTPException := HTTPException_;
  HTTPClientError := HTTPClientError_;
  init_raises := sample_init_raises
|}.

(** Modelled from the spec: [core.get_value] (webargs/core.py is not among
    the sources), the helper that extracts a named field from a key-value
    container: the raw value when the key is present, the missing sentinel
    when it is absent. *)
Definition spec_get_value
    (data : PyVal) (name : string) (field : unit) (allow_many_nested : bool)
  : PyVal :=
  match data with
  | PMultiDict d => from_option PStr Missing (assoc name d)
  | PDict d => default Missing (assoc name d)
  | _ => Missing
  end.

#[export] Instance core : Core := {|
  Field := unit;
  get_value := spec_get_value;
  is_json content_type := String.eqb content_type "application/json";
  DEFAULT_VALIDATION_STATUS := 422
|}.

Definition quote : string := String (Ascii.ascii_of_nat 34) EmptyString.

(** [json.dumps] on values whose strings need no escaping. *)
Fixpoint sample_dumps (v : PyVal) : string :=
  match v with
  | PNone | Missing => "null"
  | PBool b => if b then "true" else "false"
  | PInt z => pretty z
  | PStr s => quote ++ s ++ quote
  | PList l =>
      "[" ++ String.concat ", " (map sample_dumps l) ++ "]"
  | PDict d =>
      "{" ++ String.concat ", "
               (map (fun kv => quote ++ fst kv ++ quote ++ ": "
                               ++ sample_dumps (snd kv)) d) ++ "}"
  | PMultiDict d =>
      "{" ++ String.concat ", "
               (map (fun kv => quote ++ fst kv ++ quote ++ ": "
                               ++ quote ++ snd kv ++ quote) d) ++ "}"
  end.

(** [json.loads] on a handful of documents; every other text is rejected,
    the empty one included. *)
Definition sample_loads (doc : string) : option PyVal :=
  if String.eqb doc "null" then Some PNone
  else if String.eqb doc "true" then Some (PBool true)
  else if String.eqb doc "false" then Some (PBool false)
  else if String.eqb doc "7" then Some (PInt 7)
  else if String.eqb doc "{}" then Some (PDict [])
  else if String.eqb doc ("{" ++ quote ++ "name" ++ quote ++ ": 7}")
  then Some (PDict [("name", PInt 7)])
  else None.

#[export] Instance json : Json := {|
  loads := sample_loads;
  dumps := sample_dumps;
  str_format v := match v with
                  | PInt z => pretty z
                  | PStr s => s
                  | PNone => "None"
                  | _ => "<object>"
                  end
|}.

Definition get (query_ : MultiDict) : Request :=
  {| query := query_; headers := [("Accept", "*/*")]; cookies := [];
     match_info := [("id", "42")]; content_type := "application/octet-stream";
     body_exists := false; post_data := []; text := EmptyString;
     post_raises := None; text_raises := None |}.

Definition post_json (body : string) : Request :=
  {| query := []; headers := [("Content-Type", "application/json")];
     cookies := [("session", "abc")]; match_info := [];
     content_type := "application/json"; body_exists := true;
     post_data := []; text := body;
     post_raises := None; text_raises := None |}.

(** A form upload beyond the size limit: [req.post()] raises. *)
Definition post_too_large : Request :=
  {| query := []; headers := []; cookies := []; match_info := [];
     content_type := "application/x-www-form-urlencoded"; body_exists := true;
     post_data := []; text := EmptyString;
     post_raises := Some (OtherError "HTTPRequestEntityTooLarge");
     text_raises := None |}.

(** A JSON request whose bytes are not valid UTF-8: [req.text()] raises. *)
Definition post_json_bad_charset : Request :=
  {| query := []; headers := []; cookies := []; match_info := [];
     content_type := "application/json"; body_exists := true;
     post_data := []; text := EmptyString;
     post_raises := None;
     text_raises := Some (UnicodeDecodeError "invalid start byte") |}.

Definition bad_name : ValidationError.t :=
  {| ValidationError.messages :=
       PDict [("name", PList [PStr "Not a valid integer."])];
     ValidationError.status_code := None |}.

(** The locations of [core.Parser.__location_map__]. *)
Definition core_location_map : gmap string string :=
  list_to_map
    [ ("querystring", "parse_querystring"); ("query", "parse_querystring");
      ("json", "parse_json"); ("form", "parse_form");
      ("headers", "parse_headers"); ("cookies", "parse_cookies");
      ("files", "parse_files") ].

Definition json_call (name : string) : Call :=
  {| call_method := m_parse_json; call_name := name; call_field := tt |}.

Definition form_call (name : string) : Call :=
  {| call_method := m_parse_form; call_name := name; call_field := tt |}.

End Sample.

(** * Properties *)

(** ** The registration step *)

Section ExceptionMapFacts.
Context `{WebExceptions}.

Lemma body_keeps_keys m name code :
  is_Some (m !! code) → is_Some (_find_exceptions_body m name !! code).
Proof.
  intros Hm. unfold _find_exceptions_body.
  destruct (web_exceptions_getattr name) as [obj|]; [|done].
  destruct (issubclass obj HTTPException); simpl; [|done].
  destruct (status_code obj) as [k|]; [|done].
  destruct (m !! k) as [old|] eqn:Hk.
  - destruct (issubclass obj old); [done|].
    rewrite lookup_insert. case_decide; [eauto | done].
  - rewrite lookup_insert. case_decide; [eauto | done].
Qed.

Lemma body_registers m name obj code :
  web_exceptions_getattr name = ObjClass obj →
  issubclass obj HTTPException = true →
  status_code obj = Some code →
  is_Some (_find_exceptions_body m name !! code).
Proof.
  intros Hobj Hsub Hcode. unfold _find_exceptions_body.
  rewrite Hobj, Hsub, Hcode. simpl.
  destruct (m !! code) as [old|] eqn:Hk.
  - destruct (issubclass obj old); [by rewrite Hk|].
    rewrite lookup_insert_eq. eauto.
  - rewrite lookup_insert_eq. eauto.
Qed.

Lemma find_keeps_keys names m code :
  is_Some (m !! code) → is_Some (_find_exceptions m names !! code).
Proof.
  revert m. induction names as [|name names IH]; intros m Hm; [done|].
  apply IH, body_keeps_keys, Hm.
Qed.

Lemma find_registers names m name obj code :
  name ∈ names →
  web_exceptions_getattr name = ObjClass obj →
  issubclass obj HTTPException = true →
  status_code obj = Some code →
  is_Some (_find_exceptions m names !! code).
Proof.
  intros Hin Hobj Hsub Hcode. revert m.
  induction names as [|n names IH]; intros m.
  - by apply elem_of_nil in Hin.
  - apply elem_of_cons in Hin as [->|Hin].
    + apply (find_keeps_keys names), (body_registers m n obj); done.
    + by apply (IH Hin).
Qed.

Lemma body_well_keyed m name :
  well_keyed m → well_keyed (_find_exceptions_body m name).
Proof.
  intros Hm. unfold _find_exceptions_body.
  destruct (web_exceptions_getattr name) as [obj|]; [|done].
  destruct (issubclass obj HTTPException) eqn:Hsub; simpl; [|done].
  destruct (status_code obj) as [k|] eqn:Hk; [|done].
  assert (Hins : well_keyed (<[k := obj]> m)).
  { intros code c. rewrite lookup_insert. case_decide as Heq.
    - intros [= <-]. by subst.
    - apply Hm. }
  destruct (m !! k) as [old|]; [|done].
  by destruct (issubclass obj old).
Qed.

Lemma find_well_keyed names m :
  well_keyed m → well_keyed (_find_exceptions m names).
Proof.
  revert m. induction names as [|name names IH]; intros m Hm; [done|].
  apply IH, body_well_keyed, Hm.
Qed.

Lemma initial_well_keyed :
  issubclass HTTPClientError HTTPException = true →
  well_keyed exception_map_initial.
Proof.
  intros Hsub code c. unfold exception_map_initial.
  rewrite lookup_singleton. case_decide as Heq; [|done].
  intros [= <-]. subst code. split; [|done].
  unfold issubclass in *. apply bool_decide_eq_true.
  apply bool_decide_eq_true in Hsub.
  unfold mro at 1. simpl. by apply elem_of_cons; right.
Qed.

(** C5: after the registration step, every name of the exported list that
    denotes an HTTP exception class with a status code other than [None]
    has an entry for that code in the table. *)
Theorem exception_map_covers_exported name obj code :
  name ∈ __all__ →
  web_exceptions_getattr name = ObjClass obj →
  issubclass obj HTTPException = true →
  status_code obj = Some code →
  is_Some (exception_map !! code).
Proof. apply find_registers. Qed.

(** C10: after the registration step every entry of the table is an HTTP
    exception class whose status code is its key; and an iteration of the
    scan that meets a subclass of the class already registered under the
    same code leaves the table as it was. *)
Theorem exception_map_entries
    (Hclient : issubclass HTTPClientError HTTPException = true) :
  (∀ code c, exception_map !! code = Some c →
     issubclass c HTTPException = true ∧ status_code c = Some code)
  ∧ (∀ (pre post : list string) name obj code old_obj,
       __all__ = (pre ++ name :: post)%list →
       web_exceptions_getattr name = ObjClass obj →
       status_code obj = Some code →
       _find_exceptions exception_map_initial pre !! code = Some old_obj →
       issubclass obj old_obj = true →
       _find_exceptions exception_map_initial (pre ++ [name])%list
       = _find_exceptions exception_map_initial pre).
Proof.
  split.
  - apply find_well_keyed, initial_well_keyed, Hclient.
  - intros pre post name obj code old _ Hobj Hcode Hold Hsub.
    unfold _find_exceptions. rewrite foldl_snoc.
    fold (_find_exceptions exception_map_initial pre).
    unfold _find_exceptions_body. rewrite Hobj, Hcode, Hold, Hsub.
    by destruct (negb (issubclass obj HTTPException)).
Qed.

End ExceptionMapFacts.

(** ** Error translation *)

Section HandleErrorFacts.
Context `{WebExceptions, Core, Json}.

(** Once a class is found, the outcome is decided by its constructor. *)
Lemma handle_error_found error req schema error_status_code error_headers c :
  exception_map !! py_or error_status_code DEFAULT_VALIDATION_STATUS = Some c →
  handle_error error req schema error_status_code error_headers
  = let body :=
      String.list_byte_of_string (dumps (ValidationError.messages error)) in
    match init_raises c body error_headers "application/json" with
    | Some err => Raise (init_exn err)
    | None => Raise (HTTPError c body error_headers "application/json")
    end.
Proof. intros Hc. unfold handle_error. by rewrite Hc. Qed.


(** C4: when the table has no class for the target status code,
    [handle_error] raises an error that is not an HTTP response (a
    [LookupError], or the [AttributeError] of reading [error.status_code]
    for its message); it never returns. *)
Theorem handle_error_unregistered
    error req schema error_status_code error_headers
    (Hnone : exception_map !! py_or error_status_code DEFAULT_VALIDATION_STATUS
             = None) :
  ∃ e, handle_error error req schema error_status_code error_headers = Raise e
       ∧ hard_failure e.
Proof.
  unfold handle_error. rewrite Hnone.
  destruct (ValidationError.status_code error); eexists; split; done.
Qed.

(** X17: when [handle_error] raises an HTTP error, its class is an HTTP
    exception class whose status code is the target code (the code given,
    or the default when none is). *)
Lemma handle_error_status error req schema error_status_code error_headers c
    body hdrs ctype :
  issubclass HTTPClientError HTTPException = true →
  handle_error error req schema error_status_code error_headers
  = Raise (HTTPError c body hdrs ctype) →
  issubclass c HTTPException = true
  ∧ status_code c = Some (py_or error_status_code DEFAULT_VALIDATION_STATUS).
Proof.
  intros Hclient. unfold handle_error.
  destruct (exception_map !! _) as [c'|] eqn:Hc.
  - destruct (init_raises c' _ _ _) as [err|].
    + by destruct err.
    + intros [= <- _ _ _].
      by apply (find_well_keyed __all__ _ (initial_well_keyed Hclient)).
  - by destruct (ValidationError.status_code error).
Qed.

End HandleErrorFacts.

(** ** The synchronous locations *)

Section LocationFacts.
Context `{Core, Json}.

(** C7: the querystring, header, cookie and match_info extractions return
    what [core.get_value] returns on the corresponding container of the
    request, and leave the cache and the body untouched. *)
Theorem parse_simple_locations req name field w :
  parse_querystring req name field w
    = (Return (get_value (PMultiDict (query req)) name field false), w)
  ∧ parse_headers req name field w
    = (Return (get_value (PMultiDict (headers req)) name field false), w)
  ∧ parse_cookies req name field w
    = (Return (get_value (PMultiDict (cookies req)) name field false), w)
  ∧ parse_match_info req name field w
    = (Return (get_value (PMultiDict (match_info req)) name field false), w).
Proof. repeat split. Qed.

(** C6: [parse_files] raises [NotImplementedError] for every request, name
    and field, whatever the state of the parser. *)
Theorem parse_files_not_implemented req name field w :
  ∃ msg, parse_files req name field w = (Raise (NotImplementedError msg), w).
Proof. eexists. reflexivity. Qed.

End LocationFacts.

(** ** Finding the request among a handler's arguments *)

Lemma scan_args_skips (others : list PyVal) (rest : list HandlerArg) :
  scan_args ((ArgOther <$> others) ++ rest) = scan_args rest.
Proof. induction others as [|v others IH]; [done|]. simpl. exact IH. Qed.

(** C9: [get_request_from_view_args] returns the first positional argument
    that is a [Request], or the [request] attribute of the first that is a
    [View], whichever comes first; when that attribute is not a [Request], or
    no argument is a [Request] or a [View], the assertion fails. *)
Theorem get_request_from_view_args_first view kwargs (others : list PyVal) :
  (∀ req rest,
     get_request_from_view_args view
       ((ArgOther <$> others) ++ ArgRequest req :: rest) kwargs = Return req)
  ∧ (∀ attr rest,
       get_request_from_view_args view
         ((ArgOther <$> others) ++ ArgView attr :: rest) kwargs
       = match attr with
         | ArgRequest req => Return req
         | _ => assertion_error
         end)
  ∧ get_request_from_view_args view (ArgOther <$> others) kwargs
    = assertion_error.
Proof.
  unfold get_request_from_view_args. repeat split.
  - intros req rest. by rewrite scan_args_skips.
  - intros attr rest. by rewrite scan_args_skips.
  - rewrite <- (app_nil_r (ArgOther <$> others)). by rewrite scan_args_skips.
Qed.

(** ** The body locations and the per-request cache *)

Ltac step_coro :=
  unfold bind, ret, raise, try_except, cache_get, cache_getitem,
    cache_setitem, req_post, req_json; simpl.

Section BodyFacts.
Context `{Core, Json}.

(** *** What one call does, by the state of the cache *)

Lemma parse_form_cached req name field w v :
  _cache w !! "post" = Some v → is_None v = false →
  parse_form req name field w = (Return (get_value v name field false), w).
Proof.
  intros Hv Hnone. unfold parse_form. step_coro.
  by rewrite Hv; simpl; rewrite Hnone; simpl; rewrite Hv.
Qed.

Lemma parse_form_uncached req name field w :
  is_None (default PNone (_cache w !! "post")) = true →
  parse_form req name field w
  = match post_raises req with
    | Some e =>
        (Raise e,
         {| _cache := _cache w; awaited := awaited w ++ [AwaitPost] |})
    | None =>
        (Return (get_value (PMultiDict (post_data req)) name field false),
         {| _cache := <["post" := PMultiDict (post_data req)]> (_cache w);
            awaited := awaited w ++ [AwaitPost] |})
    end.
Proof.
  intros Hnone. unfold parse_form. step_coro.
  rewrite Hnone. destruct (post_raises req); [done|].
  simpl. by rewrite lookup_insert_eq.
Qed.

Lemma parse_json_cached req name field w v :
  _cache w !! "json" = Some v → is_None v = false →
  parse_json req name field w = (Return (get_value v name field true), w).
Proof.
  intros Hv Hnone. unfold parse_json. step_coro.
  by rewrite Hv; simpl; rewrite Hnone.
Qed.

Lemma parse_json_uncached req name field w :
  is_None (default PNone (_cache w !! "json")) = true →
  parse_json req name field w
  = if negb (body_exists req && is_json_request req) then (Return Missing, w)
    else
      match text_raises req with
      | Some e =>
          (json_except e,
           {| _cache := _cache w; awaited := awaited w ++ [AwaitJson] |})
      | None =>
          match loads (text req) with
          | Some v =>
              (Return (get_value v name field true),
               {| _cache := <["json" := v]> (_cache w);
                  awaited := awaited w ++ [AwaitJson] |})
          | None =>
              (if String.eqb (text req) EmptyString then Return Missing
               else Raise (JSONDecodeError (text req)),
               {| _cache := _cache w; awaited := awaited w ++ [AwaitJson] |})
          end
      end.
Proof.
  intros Hnone. unfold parse_json. step_coro. rewrite Hnone.
  destruct (negb (body_exists req && is_json_request req)); [done|].
  destruct (text_raises req) as [e|].
  - destruct e; try done. simpl. by destruct (String.eqb doc EmptyString).
  - destruct (loads (text req)); [done|].
    by destruct (String.eqb (text req) EmptyString).
Qed.

(** *** The cache only ever holds what the framework returned *)

Lemma call_cache_sound req c w :
  cache_sound req w → cache_sound req (snd (call req c w)).
Proof.
  intros Hcs. pose proof Hcs as [Hjson Hpost].
  destruct c as [m name field]. unfold call. simpl.
  destruct m; try done.
  - (* parse_form *)
    destruct (_cache w !! "post") as [v|] eqn:Hv.
    + rewrite (parse_form_cached req name field w v Hv); [exact Hcs|].
      by rewrite (proj1 (Hpost v eq_refl)).
    + rewrite parse_form_uncached by (by rewrite Hv).
      destruct (post_raises req) eqn:Hraises; [exact Hcs|].
      unfold cache_sound. simpl. split.
      * intros v. rewrite lookup_insert_ne by done. apply Hjson.
      * intros v. rewrite lookup_insert_eq. by intros [= <-].
  - (* parse_json *)
    destruct (is_None (default PNone (_cache w !! "json"))) eqn:Hnone.
    + rewrite parse_json_uncached by done.
      destruct (negb (body_exists req && is_json_request req)) eqn:Hgate;
        [done|].
      apply negb_false_iff in Hgate.
      destruct (text_raises req) eqn:Hraises; [exact Hcs|].
      destruct (loads (text req)) as [v|] eqn:Hloads; [|exact Hcs].
      unfold cache_sound. simpl. split.
      * intros v'. rewrite lookup_insert_eq. by intros [= <-].
      * intros v'. rewrite lookup_insert_ne by done. apply Hpost.
    + destruct (_cache w !! "json") as [v|] eqn:Hv; [|done].
      by rewrite (parse_json_cached req name field w v Hv Hnone).
Qed.

Lemma reachable_cache_sound req w : reachable req w → cache_sound req w.
Proof.
  intros [calls ->]. induction calls as [|c calls IH] using rev_ind.
  - split; intros v; simpl; by rewrite lookup_empty.
  - unfold run. rewrite foldl_snoc. by apply call_cache_sound.
Qed.

(** C3: during a request whose body is absent or empty (the framework reads
    it and hands over the empty text), or whose content type is not a JSON
    one, [parse_json] returns [core.missing] for every field name; it raises
    nothing and stores nothing. *)
Theorem parse_json_absent_is_missing
    (Hempty : loads EmptyString = None) req w name field
    (Hreach : reachable req w)
    (Habsent : body_exists req = false
               ∨ (text_raises req = None ∧ text req = EmptyString)
               ∨ is_json_request req = false) :
  ∃ w', parse_json req name field w = (Return Missing, w')
        ∧ _cache w' = _cache w.
Proof.
  destruct (reachable_cache_sound _ _ Hreach) as [Hjson _].
  assert (Hnone : _cache w !! "json" = None).
  { destruct (_cache w !! "json") as [v|] eqn:Hv; [|done].
    destruct (Hjson _ eq_refl) as (Hgate & Hloads & _).
    apply andb_true_iff in Hgate as [Hbody Hct].
    destruct Habsent as [Hb|[[_ Ht]|Hc]]; congruence. }
  rewrite parse_json_uncached by (by rewrite Hnone).
  destruct (negb (body_exists req && is_json_request req)) eqn:Hgate;
    [by eexists|].
  apply negb_false_iff, andb_true_iff in Hgate as [Hbody Hct].
  destruct Habsent as [Hb|[[Hread Ht]|Hc]]; [congruence| |congruence].
  rewrite Hread, Ht, Hempty. simpl. by eexists.
Qed.

(** C8: during a request that has a body and a JSON content type, when
    [req.json()] reads the body and fails to decode it, [parse_json] raises
    the decode error again if the document is not empty, and returns
    [core.missing] only if it is empty. *)
Theorem parse_json_reraises_decode_error req w name field
    (Hreach : reachable req w)
    (Hbody : body_exists req = true)
    (Hct : is_json_request req = true)
    (Hread : text_raises req = None)
    (Hinvalid : loads (text req) = None) :
  ∃ w',
    (text req ≠ EmptyString →
     parse_json req name field w = (Raise (JSONDecodeError (text req)), w'))
    ∧ (text req = EmptyString →
       parse_json req name field w = (Return Missing, w')).
Proof.
  destruct (reachable_cache_sound _ _ Hreach) as [Hjson _].
  assert (Hnone : _cache w !! "json" = None).
  { destruct (_cache w !! "json") as [v|] eqn:Hv; [|done].
    destruct (Hjson _ eq_refl) as (_ & Hloads & _). congruence. }
  rewrite parse_json_uncached by (by rewrite Hnone).
  rewrite Hbody, Hct, Hread, Hinvalid. simpl.
  eexists. split; intros Hdoc.
  - apply String.eqb_neq in Hdoc. by rewrite Hdoc.
  - apply String.eqb_eq in Hdoc. by rewrite Hdoc.
Qed.

End BodyFacts.

(** ** How often the body coroutines are awaited *)

Section MemoFacts.
Context `{Core, Json}.

Lemma call_memo_post req c w :
  post_raises req = None →
  memo_post w → memo_post (snd (call req c w)).
Proof.
  unfold memo_post, awaits. intros Hread Hw.
  destruct c as [m name field]. unfold call. simpl.
  destruct m; try exact Hw.
  - (* parse_form *)
    destruct (_cache w !! "post") as [v|] eqn:Hv.
    + destruct Hw as [Hnone Hone].
      rewrite (parse_form_cached req name field w v Hv Hnone). simpl.
      by rewrite Hv.
    + rewrite parse_form_uncached by (by rewrite Hv). rewrite Hread. simpl.
      rewrite lookup_insert_eq, count_occ_app, Hw. done.
  - (* parse_json *)
    destruct (is_None (default PNone (_cache w !! "json"))) eqn:Hnone.
    + rewrite parse_json_uncached by done.
      destruct (negb (body_exists req && is_json_request req)); [exact Hw|].
      destruct (text_raises req); [|destruct (loads (text req)) as [v|]];
        simpl; rewrite ?lookup_insert_ne by done;
        rewrite count_occ_app; simpl; by rewrite Nat.add_0_r.
    + destruct (_cache w !! "json") as [v|] eqn:Hv; [|done].
      by rewrite (parse_json_cached req name field w v Hv Hnone).
Qed.

Lemma call_memo_json req c w v :
  text_raises req = None →
  loads (text req) = Some v → is_None v = false →
  memo_json w → memo_json (snd (call req c w)).
Proof.
  unfold memo_json, awaits. intros Hread Hloads Hv Hw.
  destruct c as [m name field]. unfold call. simpl.
  destruct m; try exact Hw.
  - (* parse_form *)
    destruct (is_None (default PNone (_cache w !! "post"))) eqn:Hnone.
    + rewrite parse_form_uncached by done.
      destruct (post_raises req); simpl;
        rewrite ?lookup_insert_ne by done;
        rewrite count_occ_app; simpl; by rewrite Nat.add_0_r.
    + destruct (_cache w !! "post") as [p|] eqn:Hp; [|done].
      by rewrite (parse_form_cached req name field w p Hp Hnone).
  - (* parse_json *)
    destruct (_cache w !! "json") as [j|] eqn:Hj.
    + destruct Hw as [Hnone Hone].
      rewrite (parse_json_cached req name field w j Hj Hnone). simpl.
      by rewrite Hj.
    + rewrite parse_json_uncached by (by rewrite Hj).
      destruct (negb (body_exists req && is_json_request req));
        [simpl; by rewrite Hj|].
      rewrite Hread, Hloads. simpl.
      rewrite lookup_insert_eq, count_occ_app, Hw. done.
Qed.

(** What the memo does achieve when the framework's reads go through:
    [req.post()] is awaited at most once during a request, and so is
    [req.json()] when the body decodes to a value other than [None]. *)
Lemma body_read_at_most_once req calls :
  (post_raises req = None →
   (awaits AwaitPost (run req calls fresh) ≤ 1)%nat)
  ∧ (∀ v, text_raises req = None →
       loads (text req) = Some v → is_None v = false →
       (awaits AwaitJson (run req calls fresh) ≤ 1)%nat).
Proof.
  split.
  - intros Hread.
    assert (Hinv : memo_post (run req calls fresh)).
    { induction calls as [|c calls IH] using rev_ind; [done|].
      unfold run. rewrite foldl_snoc. by apply call_memo_post. }
    unfold memo_post in Hinv.
    destruct (_cache (run req calls fresh) !! "post"); lia.
  - intros v Hread Hloads Hv.
    assert (Hinv : memo_json (run req calls fresh)).
    { induction calls as [|c calls IH] using rev_ind; [done|].
      unfold run. rewrite foldl_snoc. by eapply call_memo_json. }
    unfold memo_json in Hinv.
    destruct (_cache (run req calls fresh) !! "json"); lia.
Qed.

(** What it misses: a body that decodes to [None] is stored as [None],
    which the next call reads as an empty cache. *)
Lemma parse_json_none_not_memoised req name field w :
  is_None (default PNone (_cache w !! "json")) = true →
  body_exists req = true → is_json_request req = true →
  text_raises req = None →
  loads (text req) = Some PNone →
  ∃ w', parse_json req name field w = (Return (get_value PNone name field true), w')
        ∧ awaited w' = (awaited w ++ [AwaitJson])%list
        ∧ is_None (default PNone (_cache w' !! "json")) = true.
Proof.
  intros Hnone Hbody Hct Hread Hloads.
  rewrite parse_json_uncached by done.
  rewrite Hbody, Hct, Hread, Hloads. simpl.
  eexists. split; [done|]. split; [done|]. simpl.
  by rewrite lookup_insert_eq.
Qed.

End MemoFacts.

(** C2, on a request whose JSON body is the document null: the first
    [parse_json] awaits [req.json()], which succeeds with [None], and the
    second awaits it again. *)
Theorem parse_json_null_body_awaited_twice :
  let req := Sample.post_json "null" in
  let '(r1, w1) := @parse_json Sample.core Sample.json req "a" tt fresh in
  let '(r2, w2) := @parse_json Sample.core Sample.json req "b" tt w1 in
  @loads Sample.json (text req) = Some PNone
  ∧ r1 = Return Missing ∧ awaited w1 = [AwaitJson]
  ∧ r2 = Return Missing ∧ awaited w2 = [AwaitJson; AwaitJson].
Proof. vm_compute. repeat split. Qed.

(** ** The properties on concrete requests *)

Section Instances.
Import Sample.



Lemma handle_error_unregistered_witness :
  ∃ e, handle_error bad_name (post_json "{}") PNone (Some 418) PNone = Raise e
       ∧ hard_failure e.
Proof.
  apply (handle_error_unregistered bad_name (post_json "{}") PNone (Some 418) PNone).
  vm_compute. reflexivity.
Defined.

Lemma exception_map_covers_exported_witness :
  is_Some (exception_map !! 404).
Proof.
  apply (exception_map_covers_exported "HTTPNotFound" HTTPNotFound_ 404).
  - apply (bool_decide_unpack _). vm_compute. exact I.
  - reflexivity.
  - vm_compute. reflexivity.
  - reflexivity.
Defined.

Lemma exception_map_entries_witness :
  (issubclass HTTPBadRequest_ HTTPException = true
   ∧ status_code HTTPBadRequest_ = Some 400)
  ∧ _find_exceptions exception_map_initial
      ["HTTPException"; "HTTPError"; "HTTPSuccessful"; "HTTPOk";
       "HTTPClientError"; "HTTPBadRequest"; "HTTPBadRequestDetail"]
    = _find_exceptions exception_map_initial
        ["HTTPException"; "HTTPError"; "HTTPSuccessful"; "HTTPOk";
         "HTTPClientError"; "HTTPBadRequest"].
Proof.
  assert (Hclient : issubclass HTTPClientError HTTPException = true)
    by (vm_compute; reflexivity).
  destruct (exception_map_entries Hclient) as [Hkeys Hkept]. split.
  - apply (Hkeys 400 HTTPBadRequest_). vm_compute. reflexivity.
  - apply (Hkept ["HTTPException"; "HTTPError"; "HTTPSuccessful"; "HTTPOk";
                  "HTTPClientError"; "HTTPBadRequest"]
                 ["HTTPNotFound"; "HTTPMethodNotAllowed"; "helper"]
                 "HTTPBadRequestDetail" HTTPBadRequestDetail_ 400
                 HTTPBadRequest_).
    + reflexivity.
    + reflexivity.
    + reflexivity.
    + vm_compute. reflexivity.
    + vm_compute. reflexivity.
Defined.

Lemma parse_json_absent_is_missing_witness :
  let w := run (get [("page", "2")]) [form_call "page"; json_call "page"] fresh in
  ∃ w', parse_json (get [("page", "2")]) "name" tt w = (Return Missing, w')
        ∧ _cache w' = _cache w.
Proof.
  apply (@parse_json_absent_is_missing core json).
  - reflexivity.
  - exists [form_call "page"; json_call "page"]. reflexivity.
  - right. left. split; reflexivity.
Defined.

Lemma parse_json_reraises_decode_error_witness :
  ∃ w',
    (text (post_json "{name") ≠ EmptyString →
     parse_json (post_json "{name") "name" tt fresh
     = (Raise (JSONDecodeError (text (post_json "{name"))), w'))
    ∧ (text (post_json "{name") = EmptyString →
       parse_json (post_json "{name") "name" tt fresh = (Return Missing, w')).
Proof.
  apply (@parse_json_reraises_decode_error core json
           (post_json "{name") fresh "name" tt).
  - exists []. reflexivity.
  - reflexivity.
  - reflexivity.
  - reflexivity.
  - reflexivity.
Defined.

(** With the helper as the specification describes it, the locations whose
    keys are matched as written give the raw value of a key that is present
    and [core.missing] for one that is absent. (Header names are matched
    without regard to case by the framework's mapping, which this helper
    does not render.) *)
Lemma parse_simple_locations_lookup req name w :
  parse_querystring req name tt w
    = (Return (from_option PStr Missing (assoc name (query req))), w)
  ∧ parse_cookies req name tt w
    = (Return (from_option PStr Missing (assoc name (cookies req))), w)
  ∧ parse_match_info req name tt w
    = (Return (from_option PStr Missing (assoc name (match_info req))), w).
Proof. repeat split. Qed.

Example parse_querystring_present :
  fst (parse_querystring (get [("page", "2")]) "page" tt fresh) = Return (PStr "2").
Proof. reflexivity. Qed.

Example parse_match_info_absent :
  fst (parse_match_info (get []) "slug" tt fresh) = Return Missing.
Proof. reflexivity. Qed.

Example parse_form_twice_awaits_once :
  awaited (run (post_json "{}") [form_call "a"; form_call "b"] fresh)
  = [AwaitPost].
Proof. vm_compute. reflexivity. Qed.

Example parse_json_twice_awaits_once :
  awaited (run (post_json "{}") [json_call "a"; json_call "b"] fresh)
  = [AwaitJson].
Proof. vm_compute. reflexivity. Qed.

Example view_before_request :
  get_request_from_view_args PNone
    [ArgOther (PInt 1); ArgView (ArgOther PNone); ArgRequest (get [])] PNone
  = assertion_error.
Proof. reflexivity. Qed.

Example default_status_is_registered :
  exception_map !! py_or None DEFAULT_VALIDATION_STATUS
  = Some HTTPUnprocessableEntity.
Proof. vm_compute. reflexivity. Qed.

End Instances.

(** * Further properties *)

(** ** The table and the exported classes *)

Section ExceptionMapSources.
Context `{WebExceptions}.

Lemma issubclass_refl c : issubclass c c = true.
Proof. apply bool_decide_eq_true. unfold mro. by left. Qed.

Lemma body_entry m name code c :
  _find_exceptions_body m name !! code = Some c →
  m !! code = Some c
  ∨ (web_exceptions_getattr name = ObjClass c
     ∧ issubclass c HTTPException = true ∧ status_code c = Some code).
Proof.
  unfold _find_exceptions_body.
  destruct (web_exceptions_getattr name) as [obj|]; [|by left].
  destruct (issubclass obj HTTPException) eqn:Hsub; simpl; [|by left].
  destruct (status_code obj) as [k|] eqn:Hk; [|by left].
  assert (Hins : <[k := obj]> m !! code = Some c →
                 m !! code = Some c
                 ∨ (ObjClass obj = ObjClass c
                    ∧ issubclass c HTTPException = true
                    ∧ status_code c = Some code)).
  { rewrite lookup_insert. case_decide as Heq; [|by left].
    intros [= <-]. subst. by right. }
  destruct (m !! k) as [old|]; [|done].
  destruct (issubclass obj old); [by left | done].
Qed.

Lemma find_entry names m code c :
  _find_exceptions m names !! code = Some c →
  m !! code = Some c
  ∨ ∃ name, name ∈ names ∧ web_exceptions_getattr name = ObjClass c
            ∧ issubclass c HTTPException = true ∧ status_code c = Some code.
Proof.
  revert m. induction names as [|n names IH]; intros m Hc; [by left|].
  destruct (IH (_find_exceptions_body m n) Hc) as [Hb|(name & Hin & Hrest)].
  - destruct (body_entry _ _ _ _ Hb) as [Hm|Hn]; [by left|].
    right. exists n. split; [by left | done].
  - right. exists name. split; [by right | done].
Qed.

(** X1: the table holds nothing but the module's own
    [HTTPUnprocessableEntity] under 422 and classes bound to exported names
    of [web_exceptions], each an HTTP exception class under its own code. *)
Theorem exception_map_sources code c
    (Hentry : exception_map !! code = Some c) :
  (code = 422 ∧ c = HTTPUnprocessableEntity)
  ∨ ∃ name, name ∈ __all__ ∧ web_exceptions_getattr name = ObjClass c
            ∧ issubclass c HTTPException = true ∧ status_code c = Some code.
Proof.
  destruct (find_entry _ _ _ _ Hentry) as [Hinit|Hname]; [left | by right].
  unfold exception_map_initial in Hinit.
  rewrite lookup_singleton in Hinit. case_decide; [|done].
  by injection Hinit as <-.
Qed.

Lemma body_other_code m name code obj :
  only_class_for code obj name →
  _find_exceptions_body m name !! code = m !! code
  ∨ (web_exceptions_getattr name = ObjClass obj
     ∧ issubclass obj HTTPException = true ∧ status_code obj = Some code).
Proof.
  intros Honly. unfold _find_exceptions_body.
  destruct (web_exceptions_getattr name) as [obj'|] eqn:Hobj; [|by left].
  destruct (issubclass obj' HTTPException) eqn:Hsub; simpl; [|by left].
  destruct (status_code obj') as [k|] eqn:Hk; [|by left].
  destruct (decide (k = code)) as [->|Hne].
  - pose proof (Honly obj' Hobj Hsub Hk) as ->. by right.
  - left. destruct (m !! k) as [old|].
    + destruct (issubclass obj' old); [done|]. by rewrite lookup_insert_ne.
    + by rewrite lookup_insert_ne.
Qed.

Lemma body_keeps_class m name code obj :
  only_class_for code obj name →
  m !! code = Some obj → _find_exceptions_body m name !! code = Some obj.
Proof.
  intros Honly Hm.
  destruct (body_other_code m name code obj Honly) as [->|(Hobj & Hsub & Hk)];
    [done|].
  unfold _find_exceptions_body.
  by rewrite Hobj, Hsub, Hk; simpl; rewrite Hm, issubclass_refl.
Qed.

Lemma find_keeps_class names m code obj :
  (∀ name, name ∈ names → only_class_for code obj name) →
  m !! code = Some obj → _find_exceptions m names !! code = Some obj.
Proof.
  revert m. induction names as [|n names IH]; intros m Honly Hm; [done|].
  apply IH.
  - intros name Hin. apply Honly. by right.
  - apply body_keeps_class; [apply Honly; by left | done].
Qed.

Lemma find_initial_or_class names m code obj :
  (∀ name, name ∈ names → only_class_for code obj name) →
  _find_exceptions m names !! code = m !! code
  ∨ _find_exceptions m names !! code = Some obj.
Proof.
  revert m. induction names as [|n names IH]; intros m Honly; [by left|].
  assert (Hrest : ∀ name, name ∈ names → only_class_for code obj name)
    by (intros name Hin; apply Honly; by right).
  assert (Hn : only_class_for code obj n) by (apply Honly; by left).
  change (_find_exceptions m (n :: names))
    with (_find_exceptions (_find_exceptions_body m n) names).
  destruct (IH (_find_exceptions_body m n) Hrest) as [Heq|Hobj]; [|by right].
  rewrite Heq.
  destruct (body_other_code m n code obj Hn) as [->|(Hobj & Hsub & Hk)];
    [by left|].
  unfold _find_exceptions_body. rewrite Hobj, Hsub, Hk. simpl.
  destruct (m !! code) as [old|] eqn:Hold.
  - destruct (issubclass obj old); [left; by rewrite Hold|].
    right. by rewrite lookup_insert_eq.
  - right. by rewrite lookup_insert_eq.
Qed.

(** X2: when no exported name is bound to an HTTP exception class with
    status code 422, the entry for 422 is still the module's own
    [HTTPUnprocessableEntity] after the scan. *)
Theorem exception_map_keeps_own_422
    (Hnone : ∀ name obj, name ∈ __all__ →
       web_exceptions_getattr name = ObjClass obj →
       issubclass obj HTTPException = true → status_code obj ≠ Some 422) :
  exception_map !! 422 = Some HTTPUnprocessableEntity.
Proof.
  apply find_keeps_class.
  - intros name Hin obj' Hobj Hsub Hk. by destruct (Hnone name obj' Hin Hobj Hsub).
  - apply lookup_singleton_eq.
Qed.

(** X3: a status code that one exported HTTP exception class alone declares
    is mapped to that class (for 422, provided the class does not derive from
    the module's own [HTTPUnprocessableEntity]). *)
Theorem exception_map_unique_class name obj code
    (Hin : name ∈ __all__)
    (Hobj : web_exceptions_getattr name = ObjClass obj)
    (Hsub : issubclass obj HTTPException = true)
    (Hcode : status_code obj = Some code)
    (Honly : ∀ n, n ∈ __all__ → only_class_for code obj n)
    (Hown : code = 422 → issubclass obj HTTPUnprocessableEntity = false) :
  exception_map !! code = Some obj.
Proof.
  unfold exception_map.
  apply list_elem_of_split in Hin as (pre & post & Hall).
  rewrite Hall in Honly |- *.
  unfold _find_exceptions. rewrite foldl_app. simpl.
  fold (_find_exceptions exception_map_initial pre).
  apply (find_keeps_class post).
  { intros n Hn. apply Honly. apply elem_of_app. right. by right. }
  assert (Hpre : ∀ n, n ∈ pre → only_class_for code obj n).
  { intros n Hn. apply Honly. apply elem_of_app. by left. }
  unfold _find_exceptions_body. rewrite Hobj, Hsub, Hcode. simpl.
  destruct (find_initial_or_class pre exception_map_initial code obj Hpre)
    as [Hinit|Hthere]; [rewrite Hinit | rewrite Hthere].
  - unfold exception_map_initial. rewrite lookup_singleton.
    case_decide as Heq.
    + rewrite (Hown (eq_sym Heq)). by rewrite lookup_insert_eq.
    + by rewrite lookup_insert_eq.
  - by rewrite issubclass_refl, Hthere.
Qed.

End ExceptionMapSources.

(** ** More on error translation *)

Section HandleErrorDefault.
Context `{WebExceptions, Core, Json}.

(** X4: when the core's default status is 422, [handle_error] called without
    a status code ([None] or [0]) always finds a class under 422, so it
    never ends in [LookupError] (nor in the [AttributeError] of building that
    message): it raises the HTTP error of that class with the bytes of
    [json.dumps(error.messages)], or what the constructor of the class
    raises when it refuses the call. *)
Theorem handle_error_default_is_registered
    (Hdefault : DEFAULT_VALIDATION_STATUS = 422)
    error req schema error_status_code error_headers
    (Hunset : error_status_code = None ∨ error_status_code = Some 0) :
  ∃ c, exception_map !! 422 = Some c
       ∧ (∀ e, handle_error error req schema error_status_code error_headers
               = Raise e → ¬ hard_failure e)
       ∧ handle_error error req schema error_status_code error_headers
         = let body :=
             String.list_byte_of_string
               (dumps (ValidationError.messages error)) in
           match init_raises c body error_headers "application/json" with
           | Some err => Raise (init_exn err)
           | None => Raise (HTTPError c body error_headers "application/json")
           end.
Proof.
  assert (Hsome : is_Some (exception_map !! 422)).
  { apply find_keeps_keys. unfold exception_map_initial.
    rewrite lookup_singleton_eq. eauto. }
  destruct Hsome as [c Hc]. exists c. split; [done|].
  assert (Hfound : exception_map
                   !! py_or error_status_code DEFAULT_VALIDATION_STATUS
                   = Some c).
  { rewrite Hdefault. by destruct Hunset as [-> | ->]. }
  rewrite (handle_error_found _ _ _ _ _ _ Hfound). simpl. split; [|done].
  intros e.
  destruct (init_raises c _ _ _) as [err|]; intros [= <-]; [|by intros []].
  destruct err; by intros [].
Qed.

End HandleErrorDefault.

(** ** More on finding the request *)

(** X5: a request that [get_request_from_view_args] returns is one of the
    positional arguments, or the [request] attribute of a [View] among them;
    [view] and [kwargs] play no part. *)
Theorem get_request_from_view_args_sound view args kwargs req
    (Hfound : get_request_from_view_args view args kwargs = Return req) :
  (ArgRequest req ∈ args ∨ ArgView (ArgRequest req) ∈ args)
  ∧ ∀ view' kwargs',
      get_request_from_view_args view' args kwargs' = Return req.
Proof.
  split; [|intros view' kwargs'; exact Hfound].
  unfold get_request_from_view_args in Hfound.
  destruct (scan_args args) as [r| |] eqn:Hscan; [|done|done].
  injection Hfound as ->.
  induction args as [|arg args IH]; [done|].
  simpl in Hscan. destruct arg as [r|attr|v].
  - injection Hscan as ->. left. by left.
  - subst attr. right. by left.
  - destruct (IH Hscan) as [Hr|Hv]; [left | right]; by right.
Qed.

(** ** The location map *)

(** X6: when the core's location map has no entry for match_info, the
    parser's map is the core's map with match_info bound to
    parse_match_info: every location of the core keeps its method name. When
    the core already has match_info, building the map fails. *)
Theorem location_map_extends_core (core_location_map : gmap string string) :
  (core_location_map !! "match_info" = None →
   ∃ m, __location_map__ core_location_map = Some m
        ∧ m !! "match_info" = Some "parse_match_info"
        ∧ core_location_map ⊆ m
        ∧ dom m = {["match_info"]} ∪ dom core_location_map)
  ∧ (is_Some (core_location_map !! "match_info") →
     __location_map__ core_location_map = None).
Proof.
  unfold __location_map__. split.
  - intros Hnone. rewrite Hnone. eexists. split; [done|].
    split; [apply lookup_insert_eq|].
    split; [by apply insert_subseteq | apply dom_insert_L].
  - by intros [v ->].
Qed.

(** ** More on the body locations *)

Section BodyMore.
Context `{Core, Json}.

Lemma run_snoc req calls c w :
  run req (calls ++ [c]) w = snd (call req c (run req calls w)).
Proof. unfold run. by rewrite foldl_snoc. Qed.

Lemma json_except_raise e0 e : json_except e0 = Raise e → e = e0.
Proof.
  destruct e0; simpl; try (by intros [= <-]).
  destruct (String.eqb doc EmptyString); [done | by intros [= <-]].
Qed.

(** What [parse_form] does to the "json" entry and [parse_json] to the
    "post" entry: nothing. *)
Lemma parse_form_json_entry req name field w :
  _cache (snd (parse_form req name field w)) !! "json" = _cache w !! "json".
Proof.
  destruct (is_None (default PNone (_cache w !! "post"))) eqn:Hnone.
  - rewrite parse_form_uncached by done.
    destruct (post_raises req); [done|]. simpl. by rewrite lookup_insert_ne.
  - destruct (_cache w !! "post") as [p|] eqn:Hp; [|done].
    by rewrite (parse_form_cached req name field w p Hp Hnone).
Qed.

Lemma parse_json_post_entry req name field w :
  _cache (snd (parse_json req name field w)) !! "post" = _cache w !! "post".
Proof.
  destruct (is_None (default PNone (_cache w !! "json"))) eqn:Hnone.
  - rewrite parse_json_uncached by done.
    destruct (negb (body_exists req && is_json_request req)); [done|].
    destruct (text_raises req); [done|].
    destruct (loads (text req)); [|done]. simpl. by rewrite lookup_insert_ne.
  - destruct (_cache w !! "json") as [v|] eqn:Hv; [|done].
    by rewrite (parse_json_cached req name field w v Hv Hnone).
Qed.

Lemma parse_form_awaits_json req name field w :
  awaits AwaitJson (snd (parse_form req name field w)) = awaits AwaitJson w.
Proof.
  unfold awaits.
  destruct (is_None (default PNone (_cache w !! "post"))) eqn:Hnone.
  - rewrite parse_form_uncached by done.
    destruct (post_raises req); simpl; rewrite count_occ_app; simpl;
      by rewrite Nat.add_0_r.
  - destruct (_cache w !! "post") as [p|] eqn:Hp; [|done].
    by rewrite (parse_form_cached req name field w p Hp Hnone).
Qed.

Lemma parse_form_result req w name field :
  reachable req w →
  fst (parse_form req name field w)
  = match post_raises req with
    | Some e => Raise e
    | None => Return (get_value (PMultiDict (post_data req)) name field false)
    end.
Proof.
  intros Hreach. destruct (reachable_cache_sound _ _ Hreach) as [_ Hpost].
  destruct (_cache w !! "post") as [v|] eqn:Hv.
  - destruct (Hpost v eq_refl) as [-> ->].
    by rewrite (parse_form_cached req name field w _ Hv eq_refl).
  - rewrite parse_form_uncached by (by rewrite Hv).
    by destruct (post_raises req).
Qed.

(** X7: in every state of the cache the request can reach, [parse_form]
    returns [core.get_value] on the request's post data when [req.post()]
    resolves, leaving the post data in the cache and the JSON entry as it
    was; when [req.post()] raises, [parse_form] raises the same exception
    and stores nothing. *)
Theorem parse_form_returns_post_field req w name field
    (Hreach : reachable req w) :
  (post_raises req = None →
   ∃ w', parse_form req name field w
         = (Return (get_value (PMultiDict (post_data req)) name field false),
            w')
         ∧ _cache w' !! "post" = Some (PMultiDict (post_data req))
         ∧ _cache w' !! "json" = _cache w !! "json")
  ∧ (∀ e, post_raises req = Some e →
       parse_form req name field w
       = (Raise e,
          {| _cache := _cache w; awaited := awaited w ++ [AwaitPost] |})).
Proof.
  destruct (reachable_cache_sound _ _ Hreach) as [_ Hpost]. split.
  - intros Hread. destruct (_cache w !! "post") as [v|] eqn:Hv.
    + destruct (Hpost v eq_refl) as [-> _].
      rewrite (parse_form_cached req name field w _ Hv eq_refl). by eexists.
    + rewrite parse_form_uncached by (by rewrite Hv). rewrite Hread.
      eexists. split; [done|]. simpl.
      split; [apply lookup_insert_eq | by apply lookup_insert_ne].
  - intros e Hraises. destruct (_cache w !! "post") as [v|] eqn:Hv.
    + destruct (Hpost v eq_refl) as [_ Hread]. congruence.
    + rewrite parse_form_uncached by (by rewrite Hv). by rewrite Hraises.
Qed.

(** X8: on a body that exists, has a JSON content type and decodes to [v],
    [parse_json] returns [core.get_value] on [v] (with nested "many" fields
    allowed) in every state of the cache the request can reach, whether it
    decodes the body or reads the memo. *)
Theorem parse_json_returns_document_field req w name field v
    (Hreach : reachable req w)
    (Hbody : body_exists req = true)
    (Hct : is_json_request req = true)
    (Hread : text_raises req = None)
    (Hloads : loads (text req) = Some v) :
  ∃ w', parse_json req name field w
        = (Return (get_value v name field true), w')
        ∧ _cache w' !! "json" = Some v.
Proof.
  destruct (reachable_cache_sound _ _ Hreach) as [Hjson _].
  destruct (is_None (default PNone (_cache w !! "json"))) eqn:Hnone.
  - rewrite parse_json_uncached by done.
    rewrite Hbody, Hct, Hread, Hloads. simpl.
    eexists. split; [done|]. simpl. apply lookup_insert_eq.
  - destruct (_cache w !! "json") as [j|] eqn:Hj; [|done].
    destruct (Hjson j eq_refl) as (_ & Hsame & _).
    assert (j = v) as -> by congruence.
    rewrite (parse_json_cached req name field w v Hj Hnone). by eexists.
Qed.

(** X9: memoisation is not observable: in every state the request can reach,
    each of the seven [parse_*] methods returns or raises exactly what it
    does on a request that has just started. *)
Theorem call_result_independent_of_history req w c
    (Hreach : reachable req w) :
  fst (call req c w) = fst (call req c fresh).
Proof.
  destruct (reachable_cache_sound _ _ Hreach) as [Hjson Hpost].
  destruct c as [m name field]. unfold call. simpl.
  destruct m; try reflexivity.
  - (* parse_form *)
    rewrite (parse_form_result req w name field Hreach).
    symmetry. apply parse_form_result. by exists [].
  - (* parse_json *)
    destruct (is_None (default PNone (_cache w !! "json"))) eqn:Hnone.
    + rewrite !parse_json_uncached by done.
      destruct (negb (body_exists req && is_json_request req)); [done|].
      destruct (text_raises req); [done|].
      by destruct (loads (text req)).
    + destruct (_cache w !! "json") as [j|] eqn:Hj; [|done].
      destruct (Hjson j eq_refl) as (Hgate & Hloads & Hread).
      rewrite (parse_json_cached req name field w j Hj Hnone).
      rewrite parse_json_uncached by done.
      by rewrite Hgate, Hread, Hloads.
Qed.

(** X10: in every state of the cache, an exception that comes out of a
    [parse_*] method is the [NotImplementedError] of [parse_files], the
    exception that [await req.post()] raised in [parse_form], the one that
    [await req.text()] raised inside [req.json()] in [parse_json], or the
    [JSONDecodeError] of a document that is not empty; the methods raise
    nothing of their own besides (no [KeyError] from reading the cache).
    A call that raises leaves the cache as it was. *)
Theorem call_raises_only req c w e
    (Hraise : fst (call req c w) = Raise e) :
  _cache (snd (call req c w)) = _cache w
  ∧ ((call_method c = m_parse_files ∧ ∃ msg, e = NotImplementedError msg)
     ∨ (call_method c = m_parse_form ∧ post_raises req = Some e)
     ∨ (call_method c = m_parse_json ∧ text_raises req = Some e)
     ∨ (call_method c = m_parse_json ∧ text_raises req = None
        ∧ e = JSONDecodeError (text req)
        ∧ text req ≠ EmptyString ∧ loads (text req) = None)).
Proof.
  destruct c as [m name field]. unfold call in *. simpl in *.
  destruct m; try discriminate.
  - (* parse_form *)
    destruct (is_None (default PNone (_cache w !! "post"))) eqn:Hnone.
    + rewrite parse_form_uncached in Hraise |- * by done.
      destruct (post_raises req) as [e0|]; [|discriminate].
      simpl in *. injection Hraise as <-. split; [done|]. right. by left.
    + destruct (_cache w !! "post") as [v|] eqn:Hv; [|done].
      rewrite (parse_form_cached req name field w v Hv Hnone) in Hraise.
      discriminate.
  - (* parse_json *)
    destruct (is_None (default PNone (_cache w !! "json"))) eqn:Hnone.
    + rewrite parse_json_uncached in Hraise |- * by done.
      destruct (negb (body_exists req && is_json_request req));
        [discriminate|].
      destruct (text_raises req) as [e0|].
      * simpl in *. apply json_except_raise in Hraise as ->.
        split; [done|]. right. right. by left.
      * destruct (loads (text req)) as [v|]; [discriminate|].
        destruct (String.eqb (text req) EmptyString) eqn:Hdoc;
          [discriminate|].
        simpl in *. injection Hraise as <-. split; [done|].
        right. right. right. by apply String.eqb_neq in Hdoc.
    + destruct (_cache w !! "json") as [j|] eqn:Hj; [|done].
      rewrite (parse_json_cached req name field w j Hj Hnone) in Hraise.
      discriminate.
  - (* parse_files *)
    split; [done|]. left. split; [done|].
    injection Hraise as <-. by eexists.
Qed.

Lemma call_cache_keys req c w :
  (∀ k, is_Some (_cache w !! k) → k = "post" ∨ k = "json") →
  ∀ k, is_Some (_cache (snd (call req c w)) !! k) → k = "post" ∨ k = "json".
Proof.
  intros Hw. destruct c as [m name field]. unfold call. simpl.
  destruct m; try exact Hw.
  - (* parse_form *)
    destruct (is_None (default PNone (_cache w !! "post"))) eqn:Hnone.
    + rewrite parse_form_uncached by done.
      destruct (post_raises req); [exact Hw|]. simpl. intros k.
      rewrite lookup_insert. case_decide; [by left | apply Hw].
    + destruct (_cache w !! "post") as [v|] eqn:Hv; [|done].
      by rewrite (parse_form_cached req name field w v Hv Hnone).
  - (* parse_json *)
    destruct (is_None (default PNone (_cache w !! "json"))) eqn:Hnone.
    + rewrite parse_json_uncached by done.
      destruct (negb (body_exists req && is_json_request req)); [exact Hw|].
      destruct (text_raises req); [exact Hw|].
      destruct (loads (text req)) as [v|]; [|exact Hw].
      simpl. intros k.
      rewrite lookup_insert. case_decide; [by right | apply Hw].
    + destruct (_cache w !! "json") as [v|] eqn:Hv; [|done].
      by rewrite (parse_json_cached req name field w v Hv Hnone).
Qed.

Lemma reachable_cache_keys req w :
  reachable req w →
  ∀ k, is_Some (_cache w !! k) → k = "post" ∨ k = "json".
Proof.
  intros [calls ->]. induction calls as [|c calls IH] using rev_ind.
  - intros k. simpl. rewrite lookup_empty. by intros [? ?].
  - rewrite run_snoc. by apply call_cache_keys.
Qed.

(** X11: whatever extractions a request has gone through, its cache has no
    key but "post" and "json", holds under "post" nothing but the request's
    post data, and under "json" nothing but the decoded body of a request
    that has a body and a JSON content type. *)
Theorem reachable_cache_contents req w k v
    (Hreach : reachable req w)
    (Hentry : _cache w !! k = Some v) :
  (k = "post" ∧ v = PMultiDict (post_data req))
  ∨ (k = "json" ∧ loads (text req) = Some v
     ∧ body_exists req = true ∧ is_json_request req = true).
Proof.
  pose proof (reachable_cache_keys req w Hreach) as Hkeys.
  destruct (reachable_cache_sound _ _ Hreach) as [Hjson Hpost].
  destruct (Hkeys k) as [-> | ->]; [by eexists | left | right].
  - split; [done|]. by apply Hpost.
  - destruct (Hjson v Hentry) as (Hgate & Hloads & _).
    apply andb_true_iff in Hgate as [Hbody Hct]. done.
Qed.

End BodyMore.

(** ** When the body coroutines are awaited *)

Section AwaitMore.
Context `{Core, Json}.

Lemma run_memo_post req calls :
  post_raises req = None → memo_post (run req calls fresh).
Proof.
  intros Hread. induction calls as [|c calls IH] using rev_ind; [done|].
  rewrite run_snoc. by apply call_memo_post.
Qed.

Lemma run_memo_json req calls v :
  text_raises req = None →
  loads (text req) = Some v → is_None v = false →
  memo_json (run req calls fresh).
Proof.
  intros Hread Hloads Hv.
  induction calls as [|c calls IH] using rev_ind; [done|].
  rewrite run_snoc. by eapply call_memo_json.
Qed.

Lemma call_post_cached req c w :
  post_raises req = None →
  is_Some (_cache (snd (call req c w)) !! "post")
  ↔ is_form_call c = true ∨ is_Some (_cache w !! "post").
Proof.
  intros Hread.
  destruct c as [m name field]. unfold call, is_form_call. simpl.
  destruct m; simpl; try (split; [by right | by intros [?|?]]).
  - (* parse_form *)
    split; [by left | intros _].
    destruct (is_None (default PNone (_cache w !! "post"))) eqn:Hnone.
    + rewrite parse_form_uncached by done. rewrite Hread. simpl.
      rewrite lookup_insert_eq. eauto.
    + destruct (_cache w !! "post") as [v|] eqn:Hv; [|done].
      rewrite (parse_form_cached req name field w v Hv Hnone). simpl.
      rewrite Hv. eauto.
  - (* parse_json *)
    rewrite parse_json_post_entry. split; [by right | by intros [?|?]].
Qed.

Lemma call_json_cached req c w v :
  body_exists req = true → is_json_request req = true →
  text_raises req = None → loads (text req) = Some v →
  is_Some (_cache (snd (call req c w)) !! "json")
  ↔ is_json_call c = true ∨ is_Some (_cache w !! "json").
Proof.
  intros Hbody Hct Hread Hloads.
  destruct c as [m name field]. unfold call, is_json_call. simpl.
  destruct m; simpl; try (split; [by right | by intros [?|?]]).
  - (* parse_form *)
    rewrite parse_form_json_entry. split; [by right | by intros [?|?]].
  - (* parse_json *)
    split; [by left | intros _].
    destruct (is_None (default PNone (_cache w !! "json"))) eqn:Hnone.
    + rewrite parse_json_uncached by done.
      rewrite Hbody, Hct, Hread, Hloads. simpl.
      rewrite lookup_insert_eq. eauto.
    + destruct (_cache w !! "json") as [j|] eqn:Hj; [|done].
      rewrite (parse_json_cached req name field w j Hj Hnone). simpl.
      rewrite Hj. eauto.
Qed.

(** X12: during a request whose [req.post()] resolves, [req.post()] is
    awaited exactly once if [parse_form] is called at all, however many
    times and among whatever other extractions, and not at all otherwise. *)
Theorem post_awaited_once_on_demand req calls
    (Hread : post_raises req = None) :
  awaits AwaitPost (run req calls fresh)
  = if existsb is_form_call calls then 1%nat else 0%nat.
Proof.
  assert (Hcached : is_Some (_cache (run req calls fresh) !! "post")
                    ↔ existsb is_form_call calls = true).
  { induction calls as [|c calls IH] using rev_ind.
    - simpl. rewrite lookup_empty. split; [by intros [? ?] | done].
    - rewrite run_snoc, (call_post_cached _ _ _ Hread), existsb_app, IH.
      simpl. rewrite orb_true_iff, orb_false_r. tauto. }
  pose proof (run_memo_post req calls Hread) as Hmemo.
  unfold memo_post in Hmemo.
  destruct (_cache (run req calls fresh) !! "post") as [v|].
  - destruct Hmemo as [_ ->].
    by rewrite (proj1 Hcached (ex_intro _ v eq_refl)).
  - rewrite Hmemo. destruct (existsb is_form_call calls); [|done].
    by destruct (proj2 Hcached eq_refl).
Qed.

(** X13: on a body that exists, has a JSON content type and decodes to a
    value other than [None], [req.json()] is awaited exactly once if
    [parse_json] is called at all, and not at all otherwise. *)
Theorem json_awaited_once_on_demand req calls v
    (Hbody : body_exists req = true)
    (Hct : is_json_request req = true)
    (Hread : text_raises req = None)
    (Hloads : loads (text req) = Some v)
    (Hvalue : is_None v = false) :
  awaits AwaitJson (run req calls fresh)
  = if existsb is_json_call calls then 1%nat else 0%nat.
Proof.
  assert (Hcached : is_Some (_cache (run req calls fresh) !! "json")
                    ↔ existsb is_json_call calls = true).
  { induction calls as [|c calls IH] using rev_ind.
    - simpl. rewrite lookup_empty. split; [by intros [? ?] | done].
    - rewrite run_snoc, (call_json_cached _ _ _ v Hbody Hct Hread Hloads).
      rewrite existsb_app, IH. simpl.
      rewrite orb_true_iff, orb_false_r. tauto. }
  pose proof (run_memo_json req calls v Hread Hloads Hvalue) as Hmemo.
  unfold memo_json in Hmemo.
  destruct (_cache (run req calls fresh) !! "json") as [j|].
  - destruct Hmemo as [_ ->].
    by rewrite (proj1 Hcached (ex_intro _ j eq_refl)).
  - rewrite Hmemo. destruct (existsb is_json_call calls); [|done].
    by destruct (proj2 Hcached eq_refl).
Qed.

(** X14: during a request that has no body, or whose content type is not a
    JSON one, no sequence of extractions awaits [req.json()] or stores
    anything under "json". *)
Theorem json_never_awaited_without_json_body req calls
    (Hgate : body_exists req = false ∨ is_json_request req = false) :
  awaits AwaitJson (run req calls fresh) = 0%nat
  ∧ _cache (run req calls fresh) !! "json" = None.
Proof.
  assert (Hclosed : negb (body_exists req && is_json_request req) = true).
  { destruct Hgate as [-> | ->]; [done|].
    by rewrite andb_false_r. }
  induction calls as [|c calls IH] using rev_ind; [done|].
  rewrite run_snoc. destruct IH as [Hlog Hcache].
  set (w := run req calls fresh) in *.
  destruct c as [m name field]. unfold call. simpl.
  destruct m; try done.
  - (* parse_form *)
    by rewrite parse_form_awaits_json, parse_form_json_entry.
  - (* parse_json *)
    rewrite parse_json_uncached by (by rewrite Hcache).
    by rewrite Hclosed.
Qed.

(** X15: every [parse_*] call awaits at most one framework coroutine and
    only ever appends to what was awaited before. *)
Theorem call_awaits_at_most_one req c w :
  awaited (snd (call req c w)) = awaited w
  ∨ (call_method c = m_parse_form
     ∧ awaited (snd (call req c w)) = (awaited w ++ [AwaitPost])%list)
  ∨ (call_method c = m_parse_json
     ∧ awaited (snd (call req c w)) = (awaited w ++ [AwaitJson])%list).
Proof.
  destruct c as [m name field]. unfold call. simpl.
  destruct m; try (by left).
  - (* parse_form *)
    destruct (is_None (default PNone (_cache w !! "post"))) eqn:Hnone.
    + rewrite parse_form_uncached by done.
      destruct (post_raises req); right; by left.
    + destruct (_cache w !! "post") as [p|] eqn:Hp; [|done].
      rewrite (parse_form_cached req name field w p Hp Hnone). by left.
  - (* parse_json *)
    destruct (is_None (default PNone (_cache w !! "json"))) eqn:Hnone.
    + rewrite parse_json_uncached by done.
      destruct (negb (body_exists req && is_json_request req)); [by left|].
      destruct (text_raises req); [|destruct (loads (text req))];
        right; by right.
    + destruct (_cache w !! "json") as [j|] eqn:Hj; [|done].
      rewrite (parse_json_cached req name field w j Hj Hnone). by left.
Qed.

(** X16: on a body that exists and has a JSON content type but is never
    memoised (reading or decoding it fails, or it decodes to [None]),
    [req.json()] is awaited once for every call of [parse_json]. *)
Theorem json_awaited_every_time_without_memo req calls
    (Hbody : body_exists req = true)
    (Hct : is_json_request req = true)
    (Hnomemo : ∀ v, loads (text req) = Some v → is_None v = true) :
  awaits AwaitJson (run req calls fresh)
  = length (List.filter is_json_call calls).
Proof.
  assert (Hinv : is_None (default PNone (_cache (run req calls fresh) !! "json"))
                 = true
                 ∧ awaits AwaitJson (run req calls fresh)
                   = length (List.filter is_json_call calls)); [|apply Hinv].
  induction calls as [|c calls IH] using rev_ind; [done|].
  rewrite run_snoc, List.filter_app, length_app.
  destruct IH as [Hnone Hlog]. rewrite <- Hlog.
  set (w := run req calls fresh) in *.
  destruct c as [m name field]. unfold call, is_json_call. simpl.
  destruct m; simpl; try (by rewrite Nat.add_0_r).
  - (* parse_form *)
    by rewrite parse_form_awaits_json, parse_form_json_entry, Nat.add_0_r.
  - (* parse_json *)
    unfold awaits.
    rewrite parse_json_uncached by done. rewrite Hbody, Hct. simpl.
    destruct (text_raises req) as [e|]; simpl.
    + by rewrite count_occ_app.
    + destruct (loads (text req)) as [v|] eqn:Hloads; simpl.
      * rewrite lookup_insert_eq, count_occ_app. simpl.
        by rewrite (Hnomemo v eq_refl).
      * by rewrite count_occ_app.
Qed.

End AwaitMore.

(** ** The further properties on concrete requests *)

Section MoreInstances.
Import Sample.

Ltac each_exported Hin :=
  repeat (apply elem_of_cons in Hin as [->|Hin]);
  [.. | by apply elem_of_nil in Hin].

Lemma exception_map_sources_witness :
  (404 = 422 ∧ HTTPNotFound_ = HTTPUnprocessableEntity)
  ∨ ∃ name, name ∈ __all__
            ∧ web_exceptions_getattr name = ObjClass HTTPNotFound_
            ∧ issubclass HTTPNotFound_ HTTPException = true
            ∧ status_code HTTPNotFound_ = Some 404.
Proof.
  apply (exception_map_sources 404 HTTPNotFound_).
  vm_compute. reflexivity.
Defined.

Lemma exception_map_keeps_own_422_witness :
  exception_map !! 422 = Some HTTPUnprocessableEntity.
Proof.
  apply exception_map_keeps_own_422.
  intros name obj Hin Hobj Hsub Hcode.
  each_exported Hin; vm_compute in Hobj; try discriminate;
    injection Hobj as <-; vm_compute in Hcode; discriminate.
Defined.

Lemma exception_map_unique_class_witness :
  exception_map !! 404 = Some HTTPNotFound_.
Proof.
  apply (exception_map_unique_class "HTTPNotFound" HTTPNotFound_ 404).
  - apply (bool_decide_unpack _). vm_compute. exact I.
  - reflexivity.
  - vm_compute. reflexivity.
  - reflexivity.
  - intros n Hin obj' Hobj Hsub Hcode.
    each_exported Hin; vm_compute in Hobj; try discriminate;
      injection Hobj as <-; vm_compute in Hcode; try discriminate;
      reflexivity.
  - intros Heq. discriminate Heq.
Defined.

Lemma handle_error_default_is_registered_witness :
  ∃ c, exception_map !! 422 = Some c
       ∧ (∀ e, handle_error bad_name (post_json "{}") PNone None PNone
               = Raise e → ¬ hard_failure e)
       ∧ handle_error bad_name (post_json "{}") PNone None PNone
         = let body :=
             String.list_byte_of_string
               (dumps (ValidationError.messages bad_name)) in
           match init_raises c body PNone "application/json" with
           | Some err => Raise (init_exn err)
           | None => Raise (HTTPError c body PNone "application/json")
           end.
Proof.
  apply (@handle_error_default_is_registered web_exceptions core json).
  - reflexivity.
  - left. reflexivity.
Defined.

Lemma handle_error_status_witness :
  issubclass HTTPBadRequest_ HTTPException = true
  ∧ status_code HTTPBadRequest_
    = Some (py_or (Some 400) DEFAULT_VALIDATION_STATUS).
Proof.
  apply (@handle_error_status web_exceptions core json
           bad_name (post_json "{}") PNone (Some 400) PNone HTTPBadRequest_
           (encode_utf8 (dumps (ValidationError.messages bad_name)))
           PNone "application/json").
  - vm_compute. reflexivity.
  - vm_compute. reflexivity.
Defined.

Lemma get_request_from_view_args_sound_witness :
  (ArgRequest (get []) ∈ [ArgOther (PInt 1); ArgView (ArgRequest (get []))]
   ∨ ArgView (ArgRequest (get []))
     ∈ [ArgOther (PInt 1); ArgView (ArgRequest (get []))])
  ∧ ∀ view' kwargs',
      get_request_from_view_args view'
        [ArgOther (PInt 1); ArgView (ArgRequest (get []))] kwargs'
      = Return (get []).
Proof.
  apply (get_request_from_view_args_sound PNone
           [ArgOther (PInt 1); ArgView (ArgRequest (get []))] PNone (get [])).
  reflexivity.
Defined.

Lemma location_map_extends_core_witness :
  ∃ m, __location_map__ core_location_map = Some m
       ∧ m !! "match_info" = Some "parse_match_info"
       ∧ core_location_map ⊆ m
       ∧ dom m = {["match_info"]} ∪ dom core_location_map.
Proof.
  apply (proj1 (location_map_extends_core core_location_map)).
  vm_compute. reflexivity.
Defined.

Lemma parse_form_returns_post_field_witness :
  (let w := run (post_json "{}") [json_call "a"; form_call "b"] fresh in
   ∃ w', parse_form (post_json "{}") "c" tt w
         = (Return (get_value (PMultiDict (post_data (post_json "{}"))) "c" tt
                      false), w')
         ∧ _cache w' !! "post" = Some (PMultiDict (post_data (post_json "{}")))
         ∧ _cache w' !! "json" = _cache w !! "json")
  ∧ (let w := run post_too_large [form_call "a"] fresh in
     parse_form post_too_large "b" tt w
     = (Raise (OtherError "HTTPRequestEntityTooLarge"),
        {| _cache := _cache w; awaited := awaited w ++ [AwaitPost] |})).
Proof.
  split.
  - apply (proj1 (@parse_form_returns_post_field core json (post_json "{}")
                    (run (post_json "{}") [json_call "a"; form_call "b"] fresh)
                    "c" tt
                    (ex_intro _ [json_call "a"; form_call "b"] eq_refl))).
    reflexivity.
  - apply (proj2 (@parse_form_returns_post_field core json post_too_large
                    (run post_too_large [form_call "a"] fresh) "b" tt
                    (ex_intro _ [form_call "a"] eq_refl))).
    reflexivity.
Defined.

Lemma parse_json_returns_document_field_witness :
  let w := run (post_json "7") [json_call "a"; form_call "b"] fresh in
  ∃ w', parse_json (post_json "7") "c" tt w
        = (Return (get_value (PInt 7) "c" tt true), w')
        ∧ _cache w' !! "json" = Some (PInt 7).
Proof.
  apply (@parse_json_returns_document_field core json).
  - exists [json_call "a"; form_call "b"]. reflexivity.
  - reflexivity.
  - reflexivity.
  - reflexivity.
  - reflexivity.
Defined.

Lemma call_result_independent_of_history_witness :
  fst (call (post_json "7") (json_call "c")
         (run (post_json "7") [json_call "a"; form_call "b"] fresh))
  = fst (call (post_json "7") (json_call "c") fresh).
Proof.
  apply (@call_result_independent_of_history core json).
  exists [json_call "a"; form_call "b"]. reflexivity.
Defined.

Lemma call_raises_only_witness :
  _cache (snd (call post_json_bad_charset (json_call "name") fresh))
  = _cache fresh
  ∧ ((call_method (json_call "name") = m_parse_files
      ∧ ∃ msg, UnicodeDecodeError "invalid start byte"
               = NotImplementedError msg)
     ∨ (call_method (json_call "name") = m_parse_form
        ∧ post_raises post_json_bad_charset
          = Some (UnicodeDecodeError "invalid start byte"))
     ∨ (call_method (json_call "name") = m_parse_json
        ∧ text_raises post_json_bad_charset
          = Some (UnicodeDecodeError "invalid start byte"))
     ∨ (call_method (json_call "name") = m_parse_json
        ∧ text_raises post_json_bad_charset = None
        ∧ UnicodeDecodeError "invalid start byte"
          = JSONDecodeError (text post_json_bad_charset)
        ∧ text post_json_bad_charset ≠ EmptyString
        ∧ loads (text post_json_bad_charset) = None)).
Proof.
  apply (@call_raises_only core json post_json_bad_charset (json_call "name")
           fresh (UnicodeDecodeError "invalid start byte")).
  reflexivity.
Defined.

Lemma reachable_cache_contents_witness :
  ("json" = "post" ∧ PDict [] = PMultiDict (post_data (post_json "{}")))
  ∨ ("json" = "json" ∧ loads (text (post_json "{}")) = Some (PDict [])
     ∧ body_exists (post_json "{}") = true
     ∧ is_json_request (post_json "{}") = true).
Proof.
  apply (@reachable_cache_contents core json (post_json "{}")
           (run (post_json "{}") [json_call "a"] fresh) "json" (PDict [])).
  - exists [json_call "a"]. reflexivity.
  - vm_compute. reflexivity.
Defined.

Lemma json_awaited_once_on_demand_witness :
  awaits AwaitJson
    (run (post_json "{}") [json_call "a"; form_call "b"; json_call "c"] fresh)
  = if existsb is_json_call [json_call "a"; form_call "b"; json_call "c"]
    then 1%nat else 0%nat.
Proof.
  apply (@json_awaited_once_on_demand core json (post_json "{}")
           [json_call "a"; form_call "b"; json_call "c"] (PDict [])).
  - reflexivity.
  - reflexivity.
  - reflexivity.
  - reflexivity.
  - reflexivity.
Defined.

Lemma post_awaited_once_on_demand_witness :
  awaits AwaitPost
    (run (post_json "{}") [form_call "a"; json_call "b"; form_call "c"] fresh)
  = if existsb is_form_call [form_call "a"; json_call "b"; form_call "c"]
    then 1%nat else 0%nat.
Proof.
  apply (@post_awaited_once_on_demand core json (post_json "{}")
           [form_call "a"; json_call "b"; form_call "c"]).
  reflexivity.
Defined.

Lemma json_never_awaited_without_json_body_witness :
  awaits AwaitJson (run (get []) [json_call "a"; json_call "b"] fresh) = 0%nat
  ∧ _cache (run (get []) [json_call "a"; json_call "b"] fresh) !! "json"
    = None.
Proof.
  apply (@json_never_awaited_without_json_body core json (get [])
           [json_call "a"; json_call "b"]).
  left. reflexivity.
Defined.

Lemma json_awaited_every_time_without_memo_witness :
  awaits AwaitJson
    (run (post_json "null") [json_call "a"; form_call "b"; json_call "c"] fresh)
  = length (List.filter is_json_call
              [json_call "a"; form_call "b"; json_call "c"]).
Proof.
  apply (@json_awaited_every_time_without_memo core json (post_json "null")
           [json_call "a"; form_call "b"; json_call "c"]).
  - reflexivity.
  - reflexivity.
  - intros v Hv. vm_compute in Hv. injection Hv as <-. reflexivity.
Defined.

End MoreInstances.
